(** * WebOsFHE: a shallow embedding of the contract [WebOsFHE.sol]

    The contract keeps a registry of encrypted processes and correlates
    decryption requests sent to an external oracle with the callbacks that
    resolve them.  Every public function of the contract is embedded as a
    computation in a small state-and-error monad; a transaction runs such a
    computation and either commits its storage writes and events, or reverts
    to the storage it started from. *)

From Stdlib Require Import ZArith Lia.
From Stdlib.Strings Require Import Byte.
From stdpp Require Import base option list strings gmap.

Local Open Scope string_scope.
Local Open Scope list_scope.
Local Open Scope Z_scope.

(** ** Machine integers *)

(** [uint256] and [uint8] values are integers in range.  Solidity 0.8 checks
    [+] and [*]: a result out of range aborts with [Panic(0x11)]. *)
Definition MAX_UINT256 : Z := 2 ^ 256 - 1.

Definition uint8 (x : Z) : Z := x mod 2 ^ 8.

Definition is_uint256 (x : Z) : Prop := 0 <= x <= MAX_UINT256.

(** ** Data model *)

(** [euint32] is a 32-byte ciphertext handle; so is [bytes32]. *)
Abbreviation euint32 := Z (only parsing).
Abbreviation bytes32 := Z (only parsing).
Abbreviation bytes := (list byte) (only parsing).

Record EncryptedProcess := {
  id : Z;
  encryptedCode : euint32;
  encryptedMemory : euint32;
  encryptedState : euint32;
  timestamp : Z
}.

Record ProcessResult := {
  encryptedOutput : euint32;
  encryptedExecutionTime : euint32
}.

Record DecryptedProcess := {
  code : string;
  memory : string;
  state : string;
  isRevealed : bool
}.

(** A mapping read at a key that was never written gives the zero value of
    the value type. *)
Class ZeroValue (V : Type) := zero_value : V.

#[global] Instance uint_zero : ZeroValue Z := 0.

#[global] Instance EncryptedProcess_zero : ZeroValue EncryptedProcess :=
  {| id := 0; encryptedCode := 0; encryptedMemory := 0;
     encryptedState := 0; timestamp := 0 |}.

#[global] Instance ProcessResult_zero : ZeroValue ProcessResult :=
  {| encryptedOutput := 0; encryptedExecutionTime := 0 |}.

#[global] Instance DecryptedProcess_zero : ZeroValue DecryptedProcess :=
  {| code := ""; memory := ""; state := ""; isRevealed := false |}.

(** [m[k]] for a [mapping(uint256 => V)]. *)
Definition read {V} `{ZeroValue V} (m : gmap Z V) (k : Z) : V :=
  default zero_value (m !! k).

(** The storage of the contract. *)
Record Storage := {
  processCount : Z;
  encryptedProcesses : gmap Z EncryptedProcess;
  decryptedProcesses : gmap Z DecryptedProcess;
  processResults : gmap Z ProcessResult;
  requestToProcessId : gmap Z Z
}.

Definition initial_storage : Storage :=
  {| processCount := 0; encryptedProcesses := ∅; decryptedProcesses := ∅;
     processResults := ∅; requestToProcessId := ∅ |}.

Inductive Event :=
  | ProcessCreated (id timestamp : Z)
  | ExecutionRequested (processId : Z)
  | ExecutionCompleted (processId : Z)
  | DecryptionRequested (processId : Z)
  | ProcessDecrypted (processId : Z).

(** The two callbacks a decryption request can name. *)
Inductive Selector :=
  | decryptProcess_selector
  | decryptExecutionResult_selector.

(** ** The environment of one transaction

    The block, the FHE library and the ABI decoder are not part of the
    contract.  A transaction sees them through this interface: the request id
    that [FHE.requestDecryption] issues for the handles it is given ([None]
    when the library call reverts), whether [FHE.checkSignatures] accepts a
    proof, and what [abi.decode] makes of a byte string ([None] when the bytes
    are not an encoding of the type asked for). *)
Record Env := {
  block_timestamp : Z;
  FHE_toBytes32 : euint32 -> bytes32;
  FHE_isInitialized : euint32 -> bool;
  FHE_requestDecryption : list bytes32 -> Selector -> option Z;
  FHE_checkSignatures : Z -> bytes -> bytes -> bool;
  abi_decode_strings : bytes -> option (list string);
  abi_decode_string : bytes -> option string
}.

(** ** Transactions *)

Inductive Error :=
  | Revert (reason : string)   (* require(false, reason) and revert(reason) *)
  | Panic (code : Z)           (* 0x11 arithmetic overflow, 0x32 index out of range *)
  | LibraryRevert              (* a revert inside the FHE library *)
  | DecodeRevert.              (* abi.decode of malformed bytes *)

(** A computation reads and writes the storage, appends to the event log, and
    may abort. *)
Definition M (A : Type) : Type :=
  Storage * list Event -> Error + A * (Storage * list Event).

#[global] Instance M_ret : MRet M := λ A (a : A) w, inr (a, w).

#[global] Instance M_bind : MBind M := λ A B (f : A -> M B) (m : M A) w,
  match m w with
  | inl e => inl e
  | inr (a, w') => f a w'
  end.

Definition throw {A} (e : Error) : M A := λ _, inl e.

Definition gets {A} (f : Storage -> A) : M A := λ w, inr (f w.1, w).

Definition modify (f : Storage -> Storage) : M unit := λ w, inr (tt, (f w.1, w.2)).

Definition emit (e : Event) : M unit := λ w, inr (tt, (w.1, (w.2 ++ [e])%list)).

Definition require (cond : bool) (reason : string) : M unit :=
  if cond then mret tt else throw (Revert reason).

Definition checked_add (a b : Z) : M Z :=
  if a + b <=? MAX_UINT256 then mret (a + b) else throw (Panic 0x11).

Definition checked_mul (a b : Z) : M Z :=
  if a * b <=? MAX_UINT256 then mret (a * b) else throw (Panic 0x11).

(** [a[i]] on a memory array. *)
Definition index {A} (a : list A) (i : nat) : M A :=
  match a !! i with
  | Some x => mret x
  | None => throw (Panic 0x32)
  end.

Definition of_option {A} (e : Error) (o : option A) : M A :=
  match o with
  | Some x => mret x
  | None => throw e
  end.

(** What a transaction leaves behind. *)
Inductive Outcome :=
  | Committed (s' : Storage) (events : list Event)
  | Reverted (e : Error) (s : Storage).

(** Run a public function as one transaction from storage [s]: on an abort
    every write and every event of the transaction is discarded. *)
Definition transact (m : M unit) (s : Storage) : Outcome :=
  match m (s, []) with
  | inr (_, (s', events)) => Committed s' events
  | inl e => Reverted e s
  end.

Definition post (o : Outcome) : Storage :=
  match o with
  | Committed s' _ => s'
  | Reverted _ s => s
  end.

Definition emitted (o : Outcome) : list Event :=
  match o with
  | Committed _ events => events
  | Reverted _ _ => []
  end.

Definition succeeded (o : Outcome) : bool :=
  match o with
  | Committed _ _ => true
  | Reverted _ _ => false
  end.

(** ** Storage writes *)

Definition set_processCount (v : Z) (s : Storage) : Storage :=
  {| processCount := v;
     encryptedProcesses := encryptedProcesses s;
     decryptedProcesses := decryptedProcesses s;
     processResults := processResults s;
     requestToProcessId := requestToProcessId s |}.

Definition set_encryptedProcess (k : Z) (v : EncryptedProcess) (s : Storage) : Storage :=
  {| processCount := processCount s;
     encryptedProcesses := <[k := v]> (encryptedProcesses s);
     decryptedProcesses := decryptedProcesses s;
     processResults := processResults s;
     requestToProcessId := requestToProcessId s |}.

Definition set_decryptedProcess (k : Z) (v : DecryptedProcess) (s : Storage) : Storage :=
  {| processCount := processCount s;
     encryptedProcesses := encryptedProcesses s;
     decryptedProcesses := <[k := v]> (decryptedProcesses s);
     processResults := processResults s;
     requestToProcessId := requestToProcessId s |}.

Definition set_processResult (k : Z) (v : ProcessResult) (s : Storage) : Storage :=
  {| processCount := processCount s;
     encryptedProcesses := encryptedProcesses s;
     decryptedProcesses := decryptedProcesses s;
     processResults := <[k := v]> (processResults s);
     requestToProcessId := requestToProcessId s |}.

Definition set_requestToProcessId (k v : Z) (s : Storage) : Storage :=
  {| processCount := processCount s;
     encryptedProcesses := encryptedProcesses s;
     decryptedProcesses := decryptedProcesses s;
     processResults := processResults s;
     requestToProcessId := <[k := v]> (requestToProcessId s) |}.

(** A write to one field through the storage pointer
    [decryptedProcesses[processId]]. *)
Definition with_code (v : string) (d : DecryptedProcess) : DecryptedProcess :=
  {| code := v; memory := memory d; state := state d; isRevealed := isRevealed d |}.

Definition with_memory (v : string) (d : DecryptedProcess) : DecryptedProcess :=
  {| code := code d; memory := v; state := state d; isRevealed := isRevealed d |}.

Definition with_state (v : string) (d : DecryptedProcess) : DecryptedProcess :=
  {| code := code d; memory := memory d; state := v; isRevealed := isRevealed d |}.

Definition with_isRevealed (v : bool) (d : DecryptedProcess) : DecryptedProcess :=
  {| code := code d; memory := memory d; state := state d; isRevealed := v |}.

Definition update_decryptedProcess (k : Z) (f : DecryptedProcess -> DecryptedProcess)
    (s : Storage) : Storage :=
  set_decryptedProcess k (f (read (decryptedProcesses s) k)) s.

(** The record [decryptProcess] leaves at [processId] after its four writes. *)
Definition revealed_record (r0 r1 r2 : string) : DecryptedProcess :=
  {| code := r0; memory := r1; state := r2; isRevealed := true |}.

(** ** The contract *)

(** [modifier onlyOwner(uint256 processId) { _; }] *)
Definition onlyOwner (processId : Z) (body : M unit) : M unit := body.

Definition createEncryptedProcess (env : Env)
    (encryptedCode encryptedMemory encryptedState : euint32) : M unit :=
  c ← gets processCount;
  c' ← checked_add c 1;
  modify (set_processCount c');;
  newId ← gets processCount;
  modify (set_encryptedProcess newId
    {| id := newId;
       encryptedCode := encryptedCode;
       encryptedMemory := encryptedMemory;
       encryptedState := encryptedState;
       timestamp := block_timestamp env |});;
  modify (set_decryptedProcess newId
    {| code := ""; memory := ""; state := ""; isRevealed := false |});;
  emit (ProcessCreated newId (block_timestamp env)).

Definition requestProcessDecryption (env : Env) (processId : Z) : M unit :=
  onlyOwner processId (
    process ← gets (λ s, read (encryptedProcesses s) processId);
    revealed ← gets (λ s, isRevealed (read (decryptedProcesses s) processId));
    require (negb revealed) "Already decrypted";;
    let ciphertexts := replicate 3 0 in
    let ciphertexts := <[0%nat := FHE_toBytes32 env (encryptedCode process)]> ciphertexts in
    let ciphertexts := <[1%nat := FHE_toBytes32 env (encryptedMemory process)]> ciphertexts in
    let ciphertexts := <[2%nat := FHE_toBytes32 env (encryptedState process)]> ciphertexts in
    reqId ← of_option LibraryRevert
              (FHE_requestDecryption env ciphertexts decryptProcess_selector);
    modify (set_requestToProcessId reqId processId);;
    emit (DecryptionRequested processId)).

Definition decryptProcess (env : Env) (requestId : Z) (cleartexts proof : bytes) : M unit :=
  processId ← gets (λ s, read (requestToProcessId s) requestId);
  require (negb (processId =? 0)) "Invalid request";;
  revealed ← gets (λ s, isRevealed (read (decryptedProcesses s) processId));
  require (negb revealed) "Already decrypted";;
  (if FHE_checkSignatures env requestId cleartexts proof
   then mret tt else throw LibraryRevert);;
  results ← of_option DecodeRevert (abi_decode_strings env cleartexts);
  r0 ← index results 0;
  modify (update_decryptedProcess processId (with_code r0));;
  r1 ← index results 1;
  modify (update_decryptedProcess processId (with_memory r1));;
  r2 ← index results 2;
  modify (update_decryptedProcess processId (with_state r2));;
  modify (update_decryptedProcess processId (with_isRevealed true));;
  emit (ProcessDecrypted processId).

Definition requestProcessExecution (env : Env) (processId : Z) : M unit :=
  onlyOwner processId (
    pid ← gets (λ s, id (read (encryptedProcesses s) processId));
    require (negb (pid =? 0)) "Process not found";;
    emit (ExecutionRequested processId)).

Definition submitExecutionResult (env : Env) (processId : Z)
    (encryptedOutput encryptedExecutionTime : euint32) : M unit :=
  modify (set_processResult processId
    {| encryptedOutput := encryptedOutput;
       encryptedExecutionTime := encryptedExecutionTime |});;
  emit (ExecutionCompleted processId).

(** The key stored for a result request: [processId * 10 + resultType], in
    checked [uint256] arithmetic. *)
Definition encodeCompositeId (processId resultType : Z) : M Z :=
  t ← checked_mul processId 10;
  checked_add t resultType.

Definition requestResultDecryption (env : Env) (processId resultType : Z) : M unit :=
  onlyOwner processId (
    result ← gets (λ s, read (processResults s) processId);
    require (FHE_isInitialized env (encryptedOutput result)) "No results available";;
    let ciphertexts := replicate 1 0 in
    ciphertexts ←
      (if resultType =? 0 then
         mret (<[0%nat := FHE_toBytes32 env (encryptedOutput result)]> ciphertexts)
       else if resultType =? 1 then
         mret (<[0%nat := FHE_toBytes32 env (encryptedExecutionTime result)]> ciphertexts)
       else throw (Revert "Invalid result type"));
    reqId ← of_option LibraryRevert
              (FHE_requestDecryption env ciphertexts decryptExecutionResult_selector);
    compositeId ← encodeCompositeId processId resultType;
    modify (set_requestToProcessId reqId compositeId)).

(** The two locals a result callback computes from the stored key. *)
Definition decodeCompositeId (compositeId : Z) : Z * Z :=
  (compositeId / 10, uint8 (compositeId mod 10)).

Definition decryptExecutionResult (env : Env) (requestId : Z) (cleartexts proof : bytes)
    : M unit :=
  compositeId ← gets (λ s, read (requestToProcessId s) requestId);
  let '(processId, resultType) := decodeCompositeId compositeId in
  (if FHE_checkSignatures env requestId cleartexts proof
   then mret tt else throw LibraryRevert);;
  result ← of_option DecodeRevert (abi_decode_string env cleartexts);
  mret tt.

Definition getDecryptedProcess (s : Storage) (processId : Z)
    : string * string * string * bool :=
  let p := read (decryptedProcesses s) processId in
  (code p, memory p, state p, isRevealed p).

Definition hasExecutionResults (env : Env) (s : Storage) (processId : Z) : bool :=
  FHE_isInitialized env (encryptedOutput (read (processResults s) processId)).

(** ** Transaction sequences *)

(** A call of a public state-changing function, with its arguments. *)
Inductive Call :=
  | CreateEncryptedProcess (encryptedCode encryptedMemory encryptedState : euint32)
  | RequestProcessDecryption (processId : Z)
  | DecryptProcess (requestId : Z) (cleartexts proof : bytes)
  | RequestProcessExecution (processId : Z)
  | SubmitExecutionResult (processId : Z) (encryptedOutput encryptedExecutionTime : euint32)
  | RequestResultDecryption (processId resultType : Z)
  | DecryptExecutionResult (requestId : Z) (cleartexts proof : bytes).

Definition dispatch (env : Env) (c : Call) : M unit :=
  match c with
  | CreateEncryptedProcess ec em es => createEncryptedProcess env ec em es
  | RequestProcessDecryption p => requestProcessDecryption env p
  | DecryptProcess r ct pr => decryptProcess env r ct pr
  | RequestProcessExecution p => requestProcessExecution env p
  | SubmitExecutionResult p o t => submitExecutionResult env p o t
  | RequestResultDecryption p rt => requestResultDecryption env p rt
  | DecryptExecutionResult r ct pr => decryptExecutionResult env r ct pr
  end.

(** One transaction of the ledger: the storage it leaves. *)
Definition step (s : Storage) (tx : Env * Call) : Storage :=
  post (transact (dispatch tx.1 tx.2) s).

(** A ledger history: transactions applied in order, each in its own
    environment, a failed one leaving the storage as it found it. *)
Definition run (txs : list (Env * Call)) (s : Storage) : Storage :=
  foldl step s txs.

Inductive reachable : Storage -> Prop :=
  | reachable_initial : reachable initial_storage
  | reachable_step s env c :
      reachable s -> reachable (post (transact (dispatch env c) s)).

Definition is_create (c : Call) : bool :=
  match c with
  | CreateEncryptedProcess _ _ _ => true
  | _ => false
  end.

(** Whether a call is [submitExecutionResult] for the process [p]. *)
Definition submits (p : Z) (c : Call) : bool :=
  match c with
  | SubmitExecutionResult q _ _ => bool_decide (q = p)
  | _ => false
  end.

(** How many [createEncryptedProcess] calls a history holds. *)
Definition creations (txs : list (Env * Call)) : nat :=
  length (filter (λ tx, is_create tx.2 = true) txs).

(** ** A concrete environment

    The library view used to evaluate the contract on examples: handles are
    their own [bytes32], a handle is initialized when it is not zero, process
    requests get id 7 and result requests id 8, every proof but the empty one
    verifies, and every cleartext decodes. *)
Definition sample_env : Env :=
  {| block_timestamp := 1700000000;
     FHE_toBytes32 := λ h, h;
     FHE_isInitialized := λ h, negb (h =? 0);
     FHE_requestDecryption := λ _ sel,
       match sel with
       | decryptProcess_selector => Some 7
       | decryptExecutionResult_selector => Some 8
       end;
     FHE_checkSignatures := λ _ _ proof, match proof with [] => false | _ => true end;
     abi_decode_strings := λ _, Some ["print(1)"; "mem0"; "idle"];
     abi_decode_string := λ _, Some "42" |}.

(** ** Sample histories *)

(** Process 1 is created, requested and revealed. *)
Definition revealed_once : list (Env * Call) :=
  [(sample_env, CreateEncryptedProcess 11 12 13);
   (sample_env, RequestProcessDecryption 1);
   (sample_env, DecryptProcess 7 [] [x01])].

(** Ten processes, a result submitted for process 1, and a request to decrypt
    its output: the library issues the request id 8. *)
Definition result_requested : list (Env * Call) :=
  replicate 10 (sample_env, CreateEncryptedProcess 11 12 13) ++
  [(sample_env, SubmitExecutionResult 1 5 6);
   (sample_env, RequestResultDecryption 1 0)].

(** Process 1 is requested and revealed before any process is created. *)
Definition revealed_before_creation : list (Env * Call) :=
  [(sample_env, RequestProcessDecryption 1);
   (sample_env, DecryptProcess 7 [] [x01])].

(** * Verification *)

Ltac unfold_monad :=
  unfold transact, onlyOwner, require, checked_add, checked_mul, index,
    of_option, gets, modify, emit, throw, mbind, M_bind, mret, M_ret.

(** ** Mapping reads after a write *)

Section Mapping.
Context {V : Type} `{ZeroValue V}.
Implicit Types (m : gmap Z V) (k : Z) (v : V).

Lemma read_empty k : read (∅ : gmap Z V) k = zero_value.
Proof. unfold read. rewrite lookup_empty. reflexivity. Qed.

Lemma read_insert_eq m k v : read (<[k := v]> m) k = v.
Proof. unfold read. rewrite lookup_insert_eq. reflexivity. Qed.

Lemma read_insert_ne m k k' v : k <> k' -> read (<[k := v]> m) k' = read m k'.
Proof. intros Hne. unfold read. rewrite lookup_insert_ne by exact Hne. reflexivity. Qed.

Lemma read_insert m k k' v :
  read (<[k := v]> m) k' = if decide (k = k') then v else read m k'.
Proof.
  case_decide as Hk; [subst; apply read_insert_eq|apply read_insert_ne, Hk].
Qed.

Lemma read_unwritten m k : m !! k = None -> read m k = zero_value.
Proof. intros Hk. unfold read. rewrite Hk. reflexivity. Qed.
End Mapping.

(** ** What each function does, as one equation per function *)

Lemma createEncryptedProcess_eq env ec em es s :
  transact (createEncryptedProcess env ec em es) s =
    let newId := processCount s + 1 in
    if newId <=? MAX_UINT256 then
      Committed
        (set_decryptedProcess newId
           {| code := ""; memory := ""; state := ""; isRevealed := false |}
           (set_encryptedProcess newId
              {| id := newId; encryptedCode := ec; encryptedMemory := em;
                 encryptedState := es; timestamp := block_timestamp env |}
              (set_processCount newId s)))
        [ProcessCreated newId (block_timestamp env)]
    else Reverted (Panic 0x11) s.
Proof.
  unfold createEncryptedProcess. unfold_monad. cbn.
  destruct (processCount s + 1 <=? MAX_UINT256); reflexivity.
Qed.

Lemma requestProcessDecryption_eq env processId s :
  transact (requestProcessDecryption env processId) s =
    let process := read (encryptedProcesses s) processId in
    if isRevealed (read (decryptedProcesses s) processId) then
      Reverted (Revert "Already decrypted") s
    else
      match FHE_requestDecryption env
              [FHE_toBytes32 env (encryptedCode process);
               FHE_toBytes32 env (encryptedMemory process);
               FHE_toBytes32 env (encryptedState process)]
              decryptProcess_selector with
      | Some reqId =>
          Committed (set_requestToProcessId reqId processId s)
            [DecryptionRequested processId]
      | None => Reverted LibraryRevert s
      end.
Proof.
  unfold requestProcessDecryption. unfold_monad. cbn.
  destruct (isRevealed _); cbn; [reflexivity|].
  destruct (FHE_requestDecryption _ _ _); reflexivity.
Qed.

Lemma four_writes k r0 r1 r2 s :
  update_decryptedProcess k (with_isRevealed true)
    (update_decryptedProcess k (with_state r2)
       (update_decryptedProcess k (with_memory r1)
          (update_decryptedProcess k (with_code r0) s))) =
  set_decryptedProcess k (revealed_record r0 r1 r2) s.
Proof.
  unfold update_decryptedProcess, set_decryptedProcess; cbn.
  rewrite !read_insert_eq, !insert_insert_eq. reflexivity.
Qed.

Lemma decryptProcess_eq env requestId cleartexts proof s :
  transact (decryptProcess env requestId cleartexts proof) s =
    let processId := read (requestToProcessId s) requestId in
    if processId =? 0 then Reverted (Revert "Invalid request") s
    else if isRevealed (read (decryptedProcesses s) processId) then
      Reverted (Revert "Already decrypted") s
    else if negb (FHE_checkSignatures env requestId cleartexts proof) then
      Reverted LibraryRevert s
    else
      match abi_decode_strings env cleartexts with
      | None => Reverted DecodeRevert s
      | Some (r0 :: r1 :: r2 :: _) =>
          Committed (set_decryptedProcess processId (revealed_record r0 r1 r2) s)
            [ProcessDecrypted processId]
      | Some _ => Reverted (Panic 0x32) s
      end.
Proof.
  unfold decryptProcess. unfold_monad. cbn.
  destruct (_ =? 0); cbn; [reflexivity|].
  destruct (isRevealed _); cbn; [reflexivity|].
  destruct (FHE_checkSignatures _ _ _ _); cbn; [|reflexivity].
  destruct (abi_decode_strings _ _) as [[|r0 [|r1 [|r2 rs]]]|]; cbn; try reflexivity.
  rewrite four_writes. reflexivity.
Qed.

Lemma requestProcessExecution_eq env processId s :
  transact (requestProcessExecution env processId) s =
    if id (read (encryptedProcesses s) processId) =? 0 then
      Reverted (Revert "Process not found") s
    else Committed s [ExecutionRequested processId].
Proof.
  unfold requestProcessExecution. unfold_monad. cbn.
  destruct (_ =? 0); cbn; [reflexivity|]. destruct s; reflexivity.
Qed.

Lemma submitExecutionResult_eq env processId eo et s :
  transact (submitExecutionResult env processId eo et) s =
    Committed
      (set_processResult processId
         {| encryptedOutput := eo; encryptedExecutionTime := et |} s)
      [ExecutionCompleted processId].
Proof. reflexivity. Qed.

Lemma requestResultDecryption_eq env processId resultType s :
  transact (requestResultDecryption env processId resultType) s =
    let result := read (processResults s) processId in
    if negb (FHE_isInitialized env (encryptedOutput result)) then
      Reverted (Revert "No results available") s
    else if negb ((resultType =? 0) || (resultType =? 1)) then
      Reverted (Revert "Invalid result type") s
    else
      let handle := if resultType =? 0 then encryptedOutput result
                    else encryptedExecutionTime result in
      match FHE_requestDecryption env [FHE_toBytes32 env handle]
              decryptExecutionResult_selector with
      | None => Reverted LibraryRevert s
      | Some reqId =>
          if negb (processId * 10 <=? MAX_UINT256) then Reverted (Panic 0x11) s
          else if negb (processId * 10 + resultType <=? MAX_UINT256) then
            Reverted (Panic 0x11) s
          else Committed
                 (set_requestToProcessId reqId (processId * 10 + resultType) s) []
      end.
Proof.
  unfold requestResultDecryption, encodeCompositeId. unfold_monad. cbn.
  destruct (FHE_isInitialized _ _); cbn; [|reflexivity].
  destruct (resultType =? 0); cbn.
  - destruct (FHE_requestDecryption _ _ _); cbn; [|reflexivity].
    destruct (processId * 10 <=? _); cbn; [|reflexivity].
    destruct (_ <=? _); reflexivity.
  - destruct (resultType =? 1); cbn; [|reflexivity].
    destruct (FHE_requestDecryption _ _ _); cbn; [|reflexivity].
    destruct (processId * 10 <=? _); cbn; [|reflexivity].
    destruct (_ <=? _); reflexivity.
Qed.

Lemma decryptExecutionResult_eq env requestId cleartexts proof s :
  transact (decryptExecutionResult env requestId cleartexts proof) s =
    if negb (FHE_checkSignatures env requestId cleartexts proof) then
      Reverted LibraryRevert s
    else
      match abi_decode_string env cleartexts with
      | None => Reverted DecodeRevert s
      | Some _ => Committed s []
      end.
Proof.
  unfold decryptExecutionResult, decodeCompositeId. unfold_monad. cbn.
  destruct (FHE_checkSignatures _ _ _ _); cbn; [|reflexivity].
  destruct (abi_decode_string _ _); cbn; [|reflexivity].
  destruct s; reflexivity.
Qed.

(** ** Histories and invariants *)

Ltac by_call c :=
  destruct c; cbn [dispatch];
  [ rewrite createEncryptedProcess_eq
  | rewrite requestProcessDecryption_eq
  | rewrite decryptProcess_eq
  | rewrite requestProcessExecution_eq
  | rewrite submitExecutionResult_eq
  | rewrite requestResultDecryption_eq
  | rewrite decryptExecutionResult_eq ];
  cbn zeta.

Lemma run_cons tx txs s : run (tx :: txs) s = run txs (step s tx).
Proof. reflexivity. Qed.

Lemma run_app txs1 txs2 s : run (txs1 ++ txs2) s = run txs2 (run txs1 s).
Proof. apply foldl_app. Qed.

Lemma run_reachable txs s : reachable s -> reachable (run txs s).
Proof.
  revert s. induction txs as [|[env c] txs IH]; intros s Hs; [exact Hs|].
  rewrite run_cons. apply IH. apply reachable_step. exact Hs.
Qed.

(** No transaction reveals the record at key 0: a callback refuses the key 0,
    and a creation writes an unrevealed record. *)
Lemma step_zero_unrevealed env c s :
  isRevealed (read (decryptedProcesses s) 0) = false ->
  isRevealed (read (decryptedProcesses (post (transact (dispatch env c) s))) 0) = false.
Proof.
  intros H0. by_call c; repeat case_match; cbn; try exact H0.
  - rewrite read_insert. case_decide; [reflexivity|exact H0].
  - rewrite read_insert_ne; [exact H0|].
    intros Heq.
    match goal with H : (_ =? 0) = false |- _ => apply Z.eqb_neq in H; apply H end.
    exact Heq.
Qed.

Lemma reachable_zero_unrevealed s :
  reachable s -> isRevealed (read (decryptedProcesses s) 0) = false.
Proof.
  induction 1 as [|s env c _ IH]; [reflexivity|].
  apply step_zero_unrevealed, IH.
Qed.

(** The counter moves only in a creation, and then by one. *)
Lemma step_processCount env c s :
  processCount (step s (env, c)) =
    if is_create c && (processCount s + 1 <=? MAX_UINT256)
    then processCount s + 1 else processCount s.
Proof.
  unfold step; cbn [fst snd].
  by_call c; cbn [is_create andb]; repeat case_match; reflexivity.
Qed.

Lemma creations_cons env c txs :
  creations ((env, c) :: txs) =
    if is_create c then S (creations txs) else creations txs.
Proof.
  unfold creations. rewrite filter_cons. cbn [snd].
  destruct (is_create c); case_decide; try congruence; reflexivity.
Qed.

Lemma run_processCount txs s :
  processCount s + Z.of_nat (creations txs) <= MAX_UINT256 ->
  processCount (run txs s) = processCount s + Z.of_nat (creations txs).
Proof.
  revert s. induction txs as [|[env c] txs IH]; intros s Hle.
  - cbn. lia.
  - rewrite run_cons. rewrite creations_cons in *.
    pose proof (step_processCount env c s) as Hstep.
    destruct (is_create c); cbn [andb] in Hstep.
    + assert (Hfit : (processCount s + 1 <=? MAX_UINT256) = true)
        by (apply Z.leb_le; lia).
      rewrite Hfit in Hstep. rewrite IH; rewrite Hstep; lia.
    + rewrite IH; rewrite Hstep; lia.
Qed.

(** ** The callbacks *)

Section Callbacks.
Context (env : Env) (s : Storage).
Context (requestId : Z) (cleartexts proof : bytes).

(** A request id with no entry in the table resolves to the zero value, and
    [decryptProcess] rejects it. *)
Lemma decryptProcess_unregistered :
  requestToProcessId s !! requestId = None ->
  transact (decryptProcess env requestId cleartexts proof) s =
    Reverted (Revert "Invalid request") s.
Proof.
  intros Hnone. rewrite decryptProcess_eq. cbn zeta.
  unfold read. rewrite Hnone. reflexivity.
Qed.

(** [decryptProcess] commits only behind a proof that verifies. *)
Lemma decryptProcess_committed_verified s' events :
  transact (decryptProcess env requestId cleartexts proof) s = Committed s' events ->
  FHE_checkSignatures env requestId cleartexts proof = true.
Proof.
  rewrite decryptProcess_eq. cbn zeta.
  destruct (FHE_checkSignatures env requestId cleartexts proof); [reflexivity|].
  repeat case_match; discriminate.
Qed.

(** What a result callback does to the contract: nothing, whatever the
    request id. *)
Lemma decryptExecutionResult_frame :
  post (transact (decryptExecutionResult env requestId cleartexts proof) s) = s
  /\ emitted (transact (decryptExecutionResult env requestId cleartexts proof) s) = [].
Proof.
  rewrite decryptExecutionResult_eq. repeat case_match; split; reflexivity.
Qed.
End Callbacks.

(** C2. A callback whose proof fails signature verification aborts: the
    transaction of [decryptProcess], and that of [decryptExecutionResult],
    does not succeed, leaves the storage (the counter and the four mappings)
    as it was before the call, and emits no event. *)
Theorem callback_with_bad_proof_aborts
    (env : Env) (s : Storage) (requestId : Z) (cleartexts proof : bytes) :
  FHE_checkSignatures env requestId cleartexts proof = false ->
  let o1 := transact (decryptProcess env requestId cleartexts proof) s in
  let o2 := transact (decryptExecutionResult env requestId cleartexts proof) s in
  (succeeded o1 = false /\ post o1 = s /\ emitted o1 = []) /\
  (succeeded o2 = false /\ post o2 = s /\ emitted o2 = []).
Proof.
  intros Hbad o1 o2. subst o1 o2.
  rewrite decryptProcess_eq, decryptExecutionResult_eq. cbn zeta.
  rewrite Hbad. cbn [negb].
  split; [|repeat split].
  destruct (_ =? 0); [repeat split|].
  destruct (isRevealed _); repeat split.
Qed.

Lemma callback_with_bad_proof_aborts_witness :
  FHE_checkSignatures sample_env 7 [] [] = false /\
  (let o1 := transact (decryptProcess sample_env 7 [] [])
               (run [(sample_env, CreateEncryptedProcess 11 12 13);
                     (sample_env, RequestProcessDecryption 1)] initial_storage) in
   succeeded o1 = false /\
   post o1 = run [(sample_env, CreateEncryptedProcess 11 12 13);
                  (sample_env, RequestProcessDecryption 1)] initial_storage /\
   emitted o1 = []).
Proof.
  split; [reflexivity|].
  exact (proj1 (callback_with_bad_proof_aborts sample_env
    (run [(sample_env, CreateEncryptedProcess 11 12 13);
          (sample_env, RequestProcessDecryption 1)] initial_storage)
    7 [] [] eq_refl)).
Defined.

(** C3. In a reachable storage, when the record of a process is revealed, a
    [decryptProcess] call with any request id that resolves to that process
    aborts with "Already decrypted", and the [code], [memory], [state] and
    [isRevealed] fields of the record are what they were. *)
Theorem decryptProcess_twice_rejected
    (env : Env) (s : Storage) (processId requestId : Z) (cleartexts proof : bytes) :
  reachable s ->
  isRevealed (read (decryptedProcesses s) processId) = true ->
  read (requestToProcessId s) requestId = processId ->
  let o := transact (decryptProcess env requestId cleartexts proof) s in
  o = Reverted (Revert "Already decrypted") s /\
  getDecryptedProcess (post o) processId = getDecryptedProcess s processId.
Proof.
  intros Hreach Hrev Hres o. subst o.
  rewrite decryptProcess_eq. cbn zeta. rewrite Hres.
  destruct (processId =? 0) eqn:Hz.
  - apply Z.eqb_eq in Hz. rewrite Hz in Hrev.
    rewrite (reachable_zero_unrevealed s Hreach) in Hrev. discriminate.
  - rewrite Hrev. split; reflexivity.
Qed.

Lemma decryptProcess_twice_rejected_witness :
  getDecryptedProcess (run revealed_once initial_storage) 1
    = ("print(1)", "mem0", "idle", true) /\
  transact (decryptProcess sample_env 7 [x02] [x01]) (run revealed_once initial_storage)
    = Reverted (Revert "Already decrypted") (run revealed_once initial_storage).
Proof.
  split; [vm_compute; reflexivity|].
  refine (proj1 (decryptProcess_twice_rejected sample_env
    (run revealed_once initial_storage) 1 7 [x02] [x01] _ _ _)).
  - apply run_reachable, reachable_initial.
  - vm_compute; reflexivity.
  - vm_compute; reflexivity.
Defined.

(** C4, on the code.  The request id 99 was never registered, the proof
    verifies, and [decryptExecutionResult] commits: it has no counterpart of
    the "Invalid request" check of [decryptProcess]. *)
Theorem decryptExecutionResult_accepts_unregistered :
  requestToProcessId initial_storage !! 99 = None /\
  transact (decryptExecutionResult sample_env 99 [] [x01]) initial_storage
    = Committed initial_storage [] /\
  transact (decryptProcess sample_env 99 [] [x01]) initial_storage
    = Reverted (Revert "Invalid request") initial_storage.
Proof. repeat split; vm_compute; reflexivity. Qed.

(** C9. A [decryptExecutionResult] call that completes leaves the whole
    storage as it was (the counter and the four mappings) and emits no event,
    so no query tells the storage after the call from the storage before it;
    and the call completes exactly when the proof verifies and the cleartext
    decodes. *)
Theorem decryptExecutionResult_changes_nothing
    (env : Env) (s : Storage) (requestId : Z) (cleartexts proof : bytes) :
  let o := transact (decryptExecutionResult env requestId cleartexts proof) s in
  (succeeded o = true -> o = Committed s [] /\ post o = s /\
     forall processId, getDecryptedProcess (post o) processId = getDecryptedProcess s processId) /\
  (succeeded o = true <->
     FHE_checkSignatures env requestId cleartexts proof = true /\
     is_Some (abi_decode_string env cleartexts)).
Proof.
  intros o. subst o. rewrite decryptExecutionResult_eq.
  destruct (FHE_checkSignatures env requestId cleartexts proof); cbn [negb].
  - destruct (abi_decode_string env cleartexts) as [v|]; cbn [succeeded].
    + split; [intros _; repeat split|]. split; [intros _; split; eauto|reflexivity].
    + split; [discriminate|]. split; [discriminate|intros [_ [? ?]]; discriminate].
  - split; [discriminate|]. split; [discriminate|intros [? _]; discriminate].
Qed.

Lemma decryptExecutionResult_changes_nothing_witness :
  succeeded (transact (decryptExecutionResult sample_env 8 [] [x01])
               (run [(sample_env, SubmitExecutionResult 1 5 6);
                     (sample_env, RequestResultDecryption 1 0)] initial_storage)) = true /\
  transact (decryptExecutionResult sample_env 8 [] [x01])
    (run [(sample_env, SubmitExecutionResult 1 5 6);
          (sample_env, RequestResultDecryption 1 0)] initial_storage)
  = Committed (run [(sample_env, SubmitExecutionResult 1 5 6);
                    (sample_env, RequestResultDecryption 1 0)] initial_storage) [].
Proof.
  split; [vm_compute; reflexivity|].
  exact (proj1 (proj1 (decryptExecutionResult_changes_nothing sample_env
    (run [(sample_env, SubmitExecutionResult 1 5 6);
          (sample_env, RequestResultDecryption 1 0)] initial_storage)
    8 [] [x01]) eq_refl)).
Defined.

(** ** Creation *)

(** C5. In every history from the initial storage, the creation that comes
    after [k - 1] earlier [createEncryptedProcess] calls, and after any other
    transactions, failed ones among them, is assigned the id [k], for every
    [k] that is a [uint256]: the call commits, the counter becomes [k], the
    [EncryptedProcess] with id [k], the given handles and the block time is
    stored at [k], an empty unrevealed [DecryptedProcess] is stored at [k],
    and [ProcessCreated(k, timestamp)] is the one event.  So ids start at 1,
    grow by one per creation, and none is given twice. *)
Theorem createEncryptedProcess_assigns_next_id
    (txs : list (Env * Call)) (env : Env) (ec em es : Z) :
  let s := run txs initial_storage in
  let k := Z.of_nat (creations txs) + 1 in
  k <= MAX_UINT256 ->
  let o := transact (createEncryptedProcess env ec em es) s in
  o = Committed
        (set_decryptedProcess k
           {| code := ""; memory := ""; state := ""; isRevealed := false |}
           (set_encryptedProcess k
              {| id := k; encryptedCode := ec; encryptedMemory := em;
                 encryptedState := es; timestamp := block_timestamp env |}
              (set_processCount k s)))
        [ProcessCreated k (block_timestamp env)] /\
  processCount (post o) = k /\
  read (encryptedProcesses (post o)) k =
    {| id := k; encryptedCode := ec; encryptedMemory := em;
       encryptedState := es; timestamp := block_timestamp env |} /\
  getDecryptedProcess (post o) k = ("", "", "", false).
Proof.
  intros s k Hk o. subst o.
  assert (Hcount : processCount s = Z.of_nat (creations txs)).
  { subst s. rewrite run_processCount; cbn [processCount initial_storage]; lia. }
  rewrite createEncryptedProcess_eq. cbn zeta. rewrite Hcount. fold k.
  assert (Hfit : (k <=? MAX_UINT256) = true) by (apply Z.leb_le; exact Hk).
  rewrite Hfit. cbn [post].
  split; [reflexivity|]. split; [reflexivity|].
  unfold getDecryptedProcess. cbn. rewrite !read_insert_eq. split; reflexivity.
Qed.

Lemma createEncryptedProcess_assigns_next_id_witness :
  Z.of_nat (creations [(sample_env, CreateEncryptedProcess 11 12 13);
                       (sample_env, RequestProcessDecryption 9);
                       (sample_env, DecryptProcess 3 [] []);
                       (sample_env, CreateEncryptedProcess 21 22 23)]) + 1 = 3 /\
  emitted (transact (createEncryptedProcess sample_env 31 32 33)
    (run [(sample_env, CreateEncryptedProcess 11 12 13);
          (sample_env, RequestProcessDecryption 9);
          (sample_env, DecryptProcess 3 [] []);
          (sample_env, CreateEncryptedProcess 21 22 23)] initial_storage))
  = [ProcessCreated 3 1700000000].
Proof.
  split; [reflexivity|].
  pose proof (createEncryptedProcess_assigns_next_id
    [(sample_env, CreateEncryptedProcess 11 12 13);
     (sample_env, RequestProcessDecryption 9);
     (sample_env, DecryptProcess 3 [] []);
     (sample_env, CreateEncryptedProcess 21 22 23)] sample_env 31 32 33) as Hthm.
  cbn zeta in Hthm.
  destruct Hthm as [Heq _]; [vm_compute; discriminate|].
  rewrite Heq. reflexivity.
Defined.

(** ** The composite key *)

Lemma encodeCompositeId_eq processId resultType w :
  encodeCompositeId processId resultType w =
    if negb (processId * 10 <=? MAX_UINT256) then inl (Panic 0x11)
    else if negb (processId * 10 + resultType <=? MAX_UINT256) then inl (Panic 0x11)
    else inr (processId * 10 + resultType, w).
Proof.
  unfold encodeCompositeId. unfold_monad.
  destruct (processId * 10 <=? _); cbn; [|reflexivity].
  destruct (_ <=? _); reflexivity.
Qed.

(** The keys of the processes 1, 42 and 9999. *)
Lemma encodeCompositeId_examples w :
  Forall (λ '(p, r, c), encodeCompositeId p r w = inr (c, w))
    [(1, 0, 10); (1, 1, 11); (42, 0, 420); (42, 1, 421); (9999, 0, 99990); (9999, 1, 99991)].
Proof. repeat constructor. Qed.

(** C7. Whenever [processId * 10 + resultType] is encoded for a result type 0
    or 1, decoding the key as [(compositeId / 10, compositeId % 10)] gives
    back [(processId, resultType)]; this holds for every process id, 1, 42
    and 9999 among them. *)
Theorem compositeId_roundtrip (processId resultType compositeId : Z) w w' :
  resultType = 0 \/ resultType = 1 ->
  encodeCompositeId processId resultType w = inr (compositeId, w') ->
  decodeCompositeId compositeId = (processId, resultType).
Proof.
  intros Hrt Henc. rewrite encodeCompositeId_eq in Henc.
  repeat case_match; try discriminate.
  injection Henc as <- _.
  unfold decodeCompositeId, uint8.
  assert (Hq : (processId * 10 + resultType) / 10 = processId)
    by (symmetry; apply Z.div_unique with resultType; lia).
  assert (Hr : (processId * 10 + resultType) mod 10 = resultType)
    by (symmetry; apply Z.mod_unique with processId; lia).
  rewrite Hq, Hr. f_equal.
  destruct Hrt; subst; reflexivity.
Qed.

Lemma compositeId_roundtrip_witness :
  encodeCompositeId 9999 1 (initial_storage, []) = inr (99991, (initial_storage, [])) /\
  decodeCompositeId 99991 = (9999, 1).
Proof.
  split; [reflexivity|].
  apply (compositeId_roundtrip 9999 1 99991 (initial_storage, []) (initial_storage, []));
    [right; reflexivity|reflexivity].
Defined.

(** ** Requests *)

(** Only a creation stores an [EncryptedProcess], and it stores it at the new
    value of the counter: the ids in use are 1 to [processCount]. *)
Lemma step_created_ids env c s :
  0 <= processCount s ->
  (forall k, k <= 0 \/ processCount s < k -> encryptedProcesses s !! k = None) ->
  let s' := post (transact (dispatch env c) s) in
  0 <= processCount s' /\
  (forall k, k <= 0 \/ processCount s' < k -> encryptedProcesses s' !! k = None).
Proof.
  intros Hpos Hids. cbn zeta.
  by_call c; repeat case_match; cbn; try (split; [exact Hpos|exact Hids]).
  split; [lia|]. intros k Hk.
  rewrite lookup_insert_ne by lia. apply Hids. lia.
Qed.

Lemma reachable_created_ids s :
  reachable s ->
  0 <= processCount s /\
  (forall k, k <= 0 \/ processCount s < k -> encryptedProcesses s !! k = None).
Proof.
  induction 1 as [|s env c _ [IH1 IH2]].
  - split; [reflexivity|]. intros k _. apply lookup_empty.
  - apply step_created_ids; assumption.
Qed.

(** C10, as stated, at a never-created id whose record is revealed.  After
    [requestProcessDecryption(1)] and its callback on the empty contract no
    process exists, the counter is 0 and id 1 has no [EncryptedProcess], yet
    the record of id 1 is revealed: a second [requestProcessDecryption(1)]
    does not succeed and registers nothing, it aborts with "Already
    decrypted", although the library would issue a request id. *)
Lemma requestProcessDecryption_uncreated_revealed_counterexample :
  let s := run revealed_before_creation initial_storage in
  let o := transact (requestProcessDecryption sample_env 1) s in
  reachable s /\
  processCount s < 1 /\
  encryptedProcesses s !! 1 = None /\
  FHE_requestDecryption sample_env
    [FHE_toBytes32 sample_env 0; FHE_toBytes32 sample_env 0; FHE_toBytes32 sample_env 0]
    decryptProcess_selector = Some 7 /\
  succeeded o = false /\
  o = Reverted (Revert "Already decrypted") s.
Proof.
  cbn zeta. split; [apply run_reachable, reachable_initial|].
  split; [reflexivity|]. split; [vm_compute; reflexivity|].
  split; [reflexivity|]. split; vm_compute; reflexivity.
Qed.

(** C10, amended.  In a reachable storage, take an id that was never
    created, 0 or above [processCount].  [requestProcessDecryption] does not
    look for the process and never aborts with a not-found error.  When the
    [DecryptedProcess] of the id is unrevealed, as the default record is, it
    asks the library to decrypt the three handles of the default
    [EncryptedProcess], commits, maps the request id the library issues to the
    id of the process that does not exist, and emits [DecryptionRequested].
    When the record of the id was revealed by an earlier callback, it aborts
    with "Already decrypted". *)
Theorem requestProcessDecryption_of_uncreated
    (env : Env) (s : Storage) (processId : Z) :
  reachable s ->
  processId <= 0 \/ processCount s < processId ->
  let o := transact (requestProcessDecryption env processId) s in
  (isRevealed (read (decryptedProcesses s) processId) = false ->
   forall reqId,
     FHE_requestDecryption env
       [FHE_toBytes32 env 0; FHE_toBytes32 env 0; FHE_toBytes32 env 0]
       decryptProcess_selector = Some reqId ->
     o = Committed (set_requestToProcessId reqId processId s)
           [DecryptionRequested processId] /\
     read (requestToProcessId (post o)) reqId = processId) /\
  (isRevealed (read (decryptedProcesses s) processId) = true ->
   o = Reverted (Revert "Already decrypted") s) /\
  o <> Reverted (Revert "Process not found") s.
Proof.
  intros Hreach Hnew o. subst o.
  rewrite requestProcessDecryption_eq. cbn zeta.
  destruct (reachable_created_ids s Hreach) as [_ Hids].
  rewrite (read_unwritten (encryptedProcesses s) processId (Hids processId Hnew)).
  cbn [zero_value EncryptedProcess_zero encryptedCode encryptedMemory encryptedState].
  unfold zero_value, uint_zero.
  split; [|split].
  - intros Hunrev reqId Hreq. rewrite Hunrev, Hreq.
    cbn [post set_requestToProcessId requestToProcessId].
    rewrite read_insert_eq. split; reflexivity.
  - intros Hrev. rewrite Hrev. reflexivity.
  - repeat case_match; discriminate.
Qed.

Lemma requestProcessDecryption_of_uncreated_witness :
  (let s := run [(sample_env, CreateEncryptedProcess 11 12 13)] initial_storage in
   processCount s < 5 /\
   transact (requestProcessDecryption sample_env 5) s
     = Committed (set_requestToProcessId 7 5 s) [DecryptionRequested 5]) /\
  transact (requestProcessDecryption sample_env 0) initial_storage
    = Committed (set_requestToProcessId 7 0 initial_storage) [DecryptionRequested 0] /\
  transact (requestProcessDecryption sample_env 1)
    (run revealed_before_creation initial_storage)
    = Reverted (Revert "Already decrypted") (run revealed_before_creation initial_storage).
Proof.
  split; [split; [reflexivity|]|split].
  - refine (proj1 (proj1 (requestProcessDecryption_of_uncreated sample_env
      (run [(sample_env, CreateEncryptedProcess 11 12 13)] initial_storage) 5 _ _)
      _ 7 _)).
    + apply run_reachable, reachable_initial.
    + right. reflexivity.
    + reflexivity.
    + reflexivity.
  - refine (proj1 (proj1 (requestProcessDecryption_of_uncreated sample_env
      initial_storage 0 reachable_initial _) _ 7 _)).
    + left. discriminate.
    + reflexivity.
    + reflexivity.
  - refine (proj1 (proj2 (requestProcessDecryption_of_uncreated sample_env
      (run revealed_before_creation initial_storage) 1 _ _)) _).
    + apply run_reachable, reachable_initial.
    + right. reflexivity.
    + vm_compute. reflexivity.
Defined.




(** ** Which record a callback writes *)

(** [decryptProcess] takes the table entry of the request id as a process id,
    whichever function registered it, and writes the record at that key. *)
Lemma decryptProcess_writes_table_entry
    env s requestId cleartexts proof r0 r1 r2 rest :
  let key := read (requestToProcessId s) requestId in
  key <> 0 ->
  isRevealed (read (decryptedProcesses s) key) = false ->
  FHE_checkSignatures env requestId cleartexts proof = true ->
  abi_decode_strings env cleartexts = Some (r0 :: r1 :: r2 :: rest) ->
  transact (decryptProcess env requestId cleartexts proof) s =
    Committed (set_decryptedProcess key (revealed_record r0 r1 r2) s)
      [ProcessDecrypted key].
Proof.
  intros key Hkey Hunrev Hsig Hdec. subst key.
  rewrite decryptProcess_eq. cbn zeta.
  apply Z.eqb_neq in Hkey. rewrite Hkey, Hunrev, Hsig, Hdec. reflexivity.
Qed.

(** The one record a committed [decryptProcess] changes is the record at the
    table entry of its request id. *)
Lemma decryptProcess_other_records env s requestId cleartexts proof k :
  k <> read (requestToProcessId s) requestId ->
  read (decryptedProcesses
          (post (transact (decryptProcess env requestId cleartexts proof) s))) k
  = read (decryptedProcesses s) k.
Proof.
  intros Hk. rewrite decryptProcess_eq. cbn zeta.
  repeat case_match; cbn; try reflexivity.
  apply read_insert_ne. congruence.
Qed.

(** C1, on the code.  The request id 8 was registered by
    [requestResultDecryption(1, 0)], so its table entry is [1 * 10 + 0].
    [decryptProcess], called with that request id and a proof that verifies,
    takes the entry for a process id: it commits, reveals process 10 with the
    decoded strings and emits [ProcessDecrypted(10)]. *)
Theorem decryptProcess_misattributes_result_request :
  let s := run result_requested initial_storage in
  let o := transact (decryptProcess sample_env 8 [] [x01]) s in
  processCount s = 10 /\
  read (requestToProcessId s) 8 = 1 * 10 + 0 /\
  getDecryptedProcess s 10 = ("", "", "", false) /\
  o = Committed (set_decryptedProcess 10 (revealed_record "print(1)" "mem0" "idle") s)
        [ProcessDecrypted 10] /\
  getDecryptedProcess (post o) 10 = ("print(1)", "mem0", "idle", true).
Proof. cbn zeta. repeat split; vm_compute; reflexivity. Qed.

(** ** Revealed records *)

(** A transaction leaves the revealed record of a created process as it is:
    a creation writes above the counter, and a callback refuses a revealed
    record. *)
Lemma step_keeps_revealed env c s k :
  k <= processCount s ->
  isRevealed (read (decryptedProcesses s) k) = true ->
  read (decryptedProcesses (step s (env, c))) k = read (decryptedProcesses s) k.
Proof.
  intros Hk Hrev. unfold step; cbn [fst snd].
  by_call c; repeat case_match; cbn; try reflexivity.
  - apply read_insert_ne. lia.
  - apply read_insert_ne. intros <-. congruence.
Qed.

Lemma step_processCount_mono env c s : processCount s <= processCount (step s (env, c)).
Proof. rewrite step_processCount. case_match; lia. Qed.

(** Once revealed, the record of a created process stays as it is through
    every history. *)
Lemma run_keeps_revealed txs s k :
  k <= processCount s ->
  isRevealed (read (decryptedProcesses s) k) = true ->
  read (decryptedProcesses (run txs s)) k = read (decryptedProcesses s) k.
Proof.
  revert s. induction txs as [|[env c] txs IH]; intros s Hk Hrev; [reflexivity|].
  rewrite run_cons.
  pose proof (step_keeps_revealed env c s k Hk Hrev) as Hstep.
  pose proof (step_processCount_mono env c s) as Hmono.
  rewrite IH; [exact Hstep|lia|rewrite Hstep; exact Hrev].
Qed.

(** The record a committed [decryptProcess] leaves holds the three decoded
    strings and the flag, all written in that transaction. *)
Lemma decryptProcess_reveals_whole_record env s requestId cleartexts proof s' events :
  transact (decryptProcess env requestId cleartexts proof) s = Committed s' events ->
  exists r0 r1 r2 rest,
    abi_decode_strings env cleartexts = Some (r0 :: r1 :: r2 :: rest) /\
    isRevealed (read (decryptedProcesses s) (read (requestToProcessId s) requestId)) = false /\
    read (decryptedProcesses s') (read (requestToProcessId s) requestId)
      = revealed_record r0 r1 r2.
Proof.
  rewrite decryptProcess_eq. cbn zeta.
  repeat case_match; try discriminate.
  intros [= <- _]. eexists _, _, _, _. split; [reflexivity|]. split; [reflexivity|].
  cbn. apply read_insert_eq.
Qed.

(** C6, on the code.  [requestProcessDecryption] does not look for the
    process, so the record of id 1 can be revealed before process 1 exists;
    the first [createEncryptedProcess] is then assigned id 1 and overwrites
    the record: [isRevealed] goes back to [false] and the three plaintext
    fields are emptied. *)
Theorem createEncryptedProcess_resets_revealed_record :
  let s := run revealed_before_creation initial_storage in
  let o := transact (createEncryptedProcess sample_env 11 12 13) s in
  reachable s /\
  getDecryptedProcess s 1 = ("print(1)", "mem0", "idle", true) /\
  succeeded o = true /\
  emitted o = [ProcessCreated 1 1700000000] /\
  getDecryptedProcess (post o) 1 = ("", "", "", false).
Proof.
  cbn zeta. split; [apply run_reachable, reachable_initial|].
  repeat split; vm_compute; reflexivity.
Qed.

(** * Further properties of the contract *)

(** ** The registry of created processes *)

Lemma read_written {V} `{ZeroValue V} (m : gmap Z V) k v :
  m !! k = Some v -> read m k = v.
Proof. intros Hk. unfold read. rewrite Hk. reflexivity. Qed.

(** The counter stays a [uint256], and the processes 1 to [processCount] are
    stored under their own id. *)
Lemma step_registry env c s :
  processCount s <= MAX_UINT256 ->
  (forall k, 1 <= k <= processCount s ->
     exists ep, encryptedProcesses s !! k = Some ep /\ id ep = k) ->
  let s' := post (transact (dispatch env c) s) in
  processCount s' <= MAX_UINT256 /\
  (forall k, 1 <= k <= processCount s' ->
     exists ep, encryptedProcesses s' !! k = Some ep /\ id ep = k).
Proof.
  intros Hmax Hreg. cbn zeta.
  by_call c; repeat case_match; cbn; try (split; [exact Hmax|exact Hreg]).
  match goal with H : (_ <=? _) = true |- _ => apply Z.leb_le in H end.
  split; [assumption|]. intros k Hk.
  destruct (decide (k = processCount s + 1)) as [->|Hne].
  - rewrite lookup_insert_eq. eexists. split; reflexivity.
  - rewrite lookup_insert_ne by congruence. apply Hreg. lia.
Qed.

Lemma reachable_registry s :
  reachable s ->
  processCount s <= MAX_UINT256 /\
  (forall k, 1 <= k <= processCount s ->
     exists ep, encryptedProcesses s !! k = Some ep /\ id ep = k).
Proof.
  induction 1 as [|s env c _ [IH1 IH2]].
  - split; [vm_compute; discriminate|]. cbn. intros k Hk. lia.
  - apply step_registry; assumption.
Qed.

(** X1. In every reachable storage the counter is a [uint256] and the stored
    processes are exactly those with an id from 1 to [processCount], each
    stored under the id it carries. *)
Theorem created_ids_are_one_to_processCount (s : Storage) (k : Z) :
  reachable s ->
  is_uint256 (processCount s) /\
  (is_Some (encryptedProcesses s !! k) <-> 1 <= k <= processCount s) /\
  (1 <= k <= processCount s -> id (read (encryptedProcesses s) k) = k).
Proof.
  intros Hreach.
  destruct (reachable_registry s Hreach) as [Hmax Hreg].
  destruct (reachable_created_ids s Hreach) as [Hpos Hnone].
  split; [split; assumption|]. split; [split|].
  - intros Hsome. destruct (decide (1 <= k <= processCount s)) as [|Hout]; [assumption|].
    rewrite Hnone in Hsome by lia. destruct Hsome as [? ?]; discriminate.
  - intros Hk. destruct (Hreg k Hk) as (ep & Hep & _). rewrite Hep. eauto.
  - intros Hk. destruct (Hreg k Hk) as (ep & Hep & Hid).
    rewrite (read_written _ _ _ Hep). exact Hid.
Qed.

Lemma created_ids_are_one_to_processCount_witness :
  is_Some (encryptedProcesses (run result_requested initial_storage) !! 10) /\
  id (read (encryptedProcesses (run result_requested initial_storage)) 10) = 10.
Proof.
  pose proof (created_ids_are_one_to_processCount
    (run result_requested initial_storage) 10
    (run_reachable _ _ reachable_initial)) as (_ & Hdom & Hid).
  split; [apply Hdom|apply Hid]; vm_compute; split; discriminate.
Defined.

(** X2. [requestProcessExecution(processId)] in a reachable storage: for a
    created process, 1 to [processCount], it commits, changes no storage and
    emits [ExecutionRequested(processId)]; for every other id it aborts with
    "Process not found". *)
Theorem requestProcessExecution_iff_created (env : Env) (s : Storage) (processId : Z) :
  reachable s ->
  let o := transact (requestProcessExecution env processId) s in
  (1 <= processId <= processCount s ->
     o = Committed s [ExecutionRequested processId]) /\
  (processId <= 0 \/ processCount s < processId ->
     o = Reverted (Revert "Process not found") s).
Proof.
  intros Hreach o. subst o. rewrite requestProcessExecution_eq.
  destruct (reachable_registry s Hreach) as [_ Hreg].
  destruct (reachable_created_ids s Hreach) as [_ Hnone].
  split; intros Hk.
  - destruct (Hreg processId Hk) as (ep & Hep & Hid).
    rewrite (read_written _ _ _ Hep), Hid.
    assert (Hnz : (processId =? 0) = false) by (apply Z.eqb_neq; lia).
    rewrite Hnz. reflexivity.
  - rewrite (read_unwritten _ _ (Hnone processId Hk)). reflexivity.
Qed.

Lemma requestProcessExecution_iff_created_witness :
  transact (requestProcessExecution sample_env 3) (run result_requested initial_storage)
    = Committed (run result_requested initial_storage) [ExecutionRequested 3] /\
  transact (requestProcessExecution sample_env 11) (run result_requested initial_storage)
    = Reverted (Revert "Process not found") (run result_requested initial_storage).
Proof.
  pose proof (requestProcessExecution_iff_created sample_env
    (run result_requested initial_storage) 3
    (run_reachable _ _ reachable_initial)) as [Hin _].
  pose proof (requestProcessExecution_iff_created sample_env
    (run result_requested initial_storage) 11
    (run_reachable _ _ reachable_initial)) as [_ Hout].
  split; [apply Hin; vm_compute; split; discriminate|apply Hout; right; reflexivity].
Defined.

(** A transaction leaves the [EncryptedProcess] of every id up to the counter
    as it is. *)
Lemma step_keeps_encrypted env c s k :
  k <= processCount s ->
  encryptedProcesses (step s (env, c)) !! k = encryptedProcesses s !! k.
Proof.
  intros Hk. unfold step; cbn [fst snd].
  by_call c; repeat case_match; cbn; try reflexivity.
  apply lookup_insert_ne. lia.
Qed.

(** X3. An [EncryptedProcess], once created, is never written again: through
    every history the entry of an id up to the counter stays as it is, and
    the counter never goes down nor grows by more than the number of
    creations in the history. *)
Theorem created_process_is_immutable (txs : list (Env * Call)) (s : Storage) (k : Z) :
  k <= processCount s ->
  encryptedProcesses (run txs s) !! k = encryptedProcesses s !! k /\
  processCount s <= processCount (run txs s) <= processCount s + Z.of_nat (creations txs).
Proof.
  revert s. induction txs as [|[env c] txs IH]; intros s Hk.
  - cbn. split; [reflexivity|lia].
  - rewrite run_cons.
    pose proof (step_keeps_encrypted env c s k Hk) as Hstep.
    pose proof (step_processCount env c s) as Hcount.
    pose proof (step_processCount_mono env c s) as Hmono.
    destruct (IH (step s (env, c))) as [IHe IHc]; [lia|].
    rewrite creations_cons.
    split; [rewrite IHe; exact Hstep|].
    destruct (is_create c); cbn [andb] in Hcount; [case_match|]; lia.
Qed.

Lemma created_process_is_immutable_witness :
  encryptedProcesses
    (run result_requested (run [(sample_env, CreateEncryptedProcess 1 2 3)] initial_storage)) !! 1
  = Some {| id := 1; encryptedCode := 1; encryptedMemory := 2; encryptedState := 3;
            timestamp := 1700000000 |}.
Proof.
  refine (eq_trans (proj1 (created_process_is_immutable result_requested
    (run [(sample_env, CreateEncryptedProcess 1 2 3)] initial_storage) 1 _)) _).
  - vm_compute. discriminate.
  - vm_compute. reflexivity.
Defined.

(** ** Decrypted records *)

Lemma step_unrevealed_empty env c s :
  (forall k, isRevealed (read (decryptedProcesses s) k) = false ->
     read (decryptedProcesses s) k = zero_value) ->
  forall k,
    isRevealed (read (decryptedProcesses (post (transact (dispatch env c) s))) k) = false ->
    read (decryptedProcesses (post (transact (dispatch env c) s))) k = zero_value.
Proof.
  intros Hinv k. by_call c; repeat case_match; cbn; try apply Hinv.
  - rewrite read_insert. case_decide; [reflexivity|apply Hinv].
  - rewrite read_insert. case_decide; [discriminate|apply Hinv].
Qed.

(** X4. In every reachable storage a record that is not revealed holds no
    plaintext: [getDecryptedProcess] answers [("", "", "", false)] for it,
    whether the id was created or not. *)
Theorem unrevealed_record_is_empty (s : Storage) (processId : Z) :
  reachable s ->
  isRevealed (read (decryptedProcesses s) processId) = false ->
  getDecryptedProcess s processId = ("", "", "", false).
Proof.
  intros Hreach.
  assert (Hinv : forall k, isRevealed (read (decryptedProcesses s) k) = false ->
                   read (decryptedProcesses s) k = zero_value).
  { induction Hreach as [|s env c _ IH].
    - intros k _. apply read_empty.
    - apply step_unrevealed_empty, IH. }
  intros Hunrev. unfold getDecryptedProcess. rewrite (Hinv processId Hunrev). reflexivity.
Qed.

Lemma unrevealed_record_is_empty_witness :
  getDecryptedProcess (run revealed_once initial_storage) 2 = ("", "", "", false).
Proof.
  apply (unrevealed_record_is_empty (run revealed_once initial_storage) 2).
  - apply run_reachable, reachable_initial.
  - vm_compute. reflexivity.
Defined.

(** X5. Round trip: from a reachable storage, a creation, a decryption
    request for the new id and a callback with the request id the library
    issued, a proof that verifies and a cleartext that decodes to at least
    three strings leave [getDecryptedProcess] of the new id at the first three
    strings and [true].  The request sends the three handles given at
    creation. *)
Theorem create_request_decrypt_roundtrip
    (env1 env2 env3 : Env) (s : Storage) (ec em es reqId : Z)
    (cleartexts proof : bytes) (r0 r1 r2 : string) (rest : list string) :
  reachable s ->
  processCount s + 1 <= MAX_UINT256 ->
  FHE_requestDecryption env2
    [FHE_toBytes32 env2 ec; FHE_toBytes32 env2 em; FHE_toBytes32 env2 es]
    decryptProcess_selector = Some reqId ->
  FHE_checkSignatures env3 reqId cleartexts proof = true ->
  abi_decode_strings env3 cleartexts = Some (r0 :: r1 :: r2 :: rest) ->
  let newId := processCount s + 1 in
  getDecryptedProcess
    (run [(env1, CreateEncryptedProcess ec em es);
          (env2, RequestProcessDecryption newId);
          (env3, DecryptProcess reqId cleartexts proof)] s) newId
  = (r0, r1, r2, true).
Proof.
  intros Hreach Hfit Hreq Hsig Hdec. cbn zeta.
  destruct (reachable_created_ids s Hreach) as [Hpos _].
  set (newId := processCount s + 1) in *.
  assert (Hnz : (newId =? 0) = false) by (apply Z.eqb_neq; subst newId; lia).
  apply Z.leb_le in Hfit.
  unfold run; cbn [foldl].
  set (s1 := set_decryptedProcess newId
               {| code := ""; memory := ""; state := ""; isRevealed := false |}
               (set_encryptedProcess newId
                  {| id := newId; encryptedCode := ec; encryptedMemory := em;
                     encryptedState := es; timestamp := block_timestamp env1 |}
                  (set_processCount newId s))).
  assert (H1 : step s (env1, CreateEncryptedProcess ec em es) = s1).
  { unfold step; cbn [fst snd dispatch].
    rewrite createEncryptedProcess_eq. cbn zeta. fold newId. rewrite Hfit. reflexivity. }
  assert (H2 : step s1 (env2, RequestProcessDecryption newId)
               = set_requestToProcessId reqId newId s1).
  { unfold step; cbn [fst snd dispatch].
    rewrite requestProcessDecryption_eq. cbn zeta. subst s1.
    cbn [set_decryptedProcess set_encryptedProcess set_processCount
         decryptedProcesses encryptedProcesses].
    rewrite !read_insert_eq.
    cbn [isRevealed encryptedCode encryptedMemory encryptedState].
    rewrite Hreq. reflexivity. }
  assert (H3 : step (set_requestToProcessId reqId newId s1)
                 (env3, DecryptProcess reqId cleartexts proof)
               = set_decryptedProcess newId (revealed_record r0 r1 r2)
                   (set_requestToProcessId reqId newId s1)).
  { unfold step; cbn [fst snd dispatch].
    rewrite decryptProcess_eq. cbn zeta.
    cbn [set_requestToProcessId requestToProcessId decryptedProcesses].
    rewrite !read_insert_eq, Hnz. subst s1.
    cbn [set_decryptedProcess decryptedProcesses].
    rewrite read_insert_eq. cbn [isRevealed]. rewrite Hsig, Hdec. reflexivity. }
  rewrite H1, H2, H3.
  unfold getDecryptedProcess. cbn [set_decryptedProcess decryptedProcesses].
  rewrite read_insert_eq. reflexivity.
Qed.

Lemma create_request_decrypt_roundtrip_witness :
  getDecryptedProcess
    (run [(sample_env, CreateEncryptedProcess 21 22 23);
          (sample_env, RequestProcessDecryption 11);
          (sample_env, DecryptProcess 7 [] [x01])]
       (run result_requested initial_storage)) 11
  = ("print(1)", "mem0", "idle", true).
Proof.
  refine (create_request_decrypt_roundtrip sample_env sample_env sample_env
    (run result_requested initial_storage) 21 22 23 7 [] [x01]
    "print(1)" "mem0" "idle" [] _ _ _ _ _).
  - apply run_reachable, reachable_initial.
  - vm_compute. discriminate.
  - reflexivity.
  - reflexivity.
  - reflexivity.
Defined.

(** X6. Revealed is final for a created process: through every later
    history its record stays as it is, [requestProcessDecryption] for it
    aborts with "Already decrypted", and so does [decryptProcess] with any
    request id whose table entry is that process. *)
Theorem revealed_process_is_final
    (txs : list (Env * Call)) (env : Env) (s : Storage) (processId requestId : Z)
    (cleartexts proof : bytes) :
  1 <= processId <= processCount s ->
  isRevealed (read (decryptedProcesses s) processId) = true ->
  let s' := run txs s in
  getDecryptedProcess s' processId = getDecryptedProcess s processId /\
  transact (requestProcessDecryption env processId) s'
    = Reverted (Revert "Already decrypted") s' /\
  (read (requestToProcessId s') requestId = processId ->
   transact (decryptProcess env requestId cleartexts proof) s'
     = Reverted (Revert "Already decrypted") s').
Proof.
  intros Hk Hrev s'.
  assert (Hsame : read (decryptedProcesses s') processId
                  = read (decryptedProcesses s) processId)
    by (apply run_keeps_revealed; [lia|exact Hrev]).
  split; [unfold getDecryptedProcess; rewrite Hsame; reflexivity|]. split.
  - rewrite requestProcessDecryption_eq. cbn zeta. rewrite Hsame, Hrev. reflexivity.
  - intros Hres. rewrite decryptProcess_eq. cbn zeta. rewrite Hres, Hsame, Hrev.
    assert (Hnz : (processId =? 0) = false) by (apply Z.eqb_neq; lia).
    rewrite Hnz. reflexivity.
Qed.

Lemma revealed_process_is_final_witness :
  transact (requestProcessDecryption sample_env 1)
    (run result_requested (run revealed_once initial_storage))
  = Reverted (Revert "Already decrypted")
      (run result_requested (run revealed_once initial_storage)).
Proof.
  refine (proj1 (proj2 (revealed_process_is_final result_requested sample_env
    (run revealed_once initial_storage) 1 7 [] [] _ _))).
  - vm_compute. split; discriminate.
  - vm_compute. reflexivity.
Defined.

(** X7. A cleartext that decodes to fewer than three strings makes
    [decryptProcess] abort with [Panic(0x32)] at the first missing index; the
    fields written before that index are discarded with the transaction. *)
Theorem decryptProcess_short_cleartext
    (env : Env) (s : Storage) (requestId : Z) (cleartexts proof : bytes)
    (results : list string) :
  read (requestToProcessId s) requestId <> 0 ->
  isRevealed (read (decryptedProcesses s) (read (requestToProcessId s) requestId)) = false ->
  FHE_checkSignatures env requestId cleartexts proof = true ->
  abi_decode_strings env cleartexts = Some results ->
  (length results < 3)%nat ->
  transact (decryptProcess env requestId cleartexts proof) s = Reverted (Panic 0x32) s.
Proof.
  intros Hkey Hunrev Hsig Hdec Hlen.
  rewrite decryptProcess_eq. cbn zeta.
  apply Z.eqb_neq in Hkey. rewrite Hkey, Hunrev, Hsig, Hdec. cbn [negb].
  destruct results as [|r0 [|r1 [|r2 rest]]]; try reflexivity.
  cbn in Hlen. lia.
Qed.

Lemma decryptProcess_short_cleartext_witness :
  let env := {| block_timestamp := 0; FHE_toBytes32 := λ h, h;
                FHE_isInitialized := λ _, true;
                FHE_requestDecryption := λ _ _, Some 7;
                FHE_checkSignatures := λ _ _ _, true;
                abi_decode_strings := λ _, Some ["print(1)"; "mem0"];
                abi_decode_string := λ _, None |} in
  let s := run [(sample_env, CreateEncryptedProcess 11 12 13);
                (sample_env, RequestProcessDecryption 1)] initial_storage in
  transact (decryptProcess env 7 [] []) s = Reverted (Panic 0x32) s /\
  getDecryptedProcess (post (transact (decryptProcess env 7 [] []) s)) 1
    = ("", "", "", false).
Proof.
  cbn zeta. split; [|vm_compute; reflexivity].
  eapply decryptProcess_short_cleartext.
  - vm_compute. discriminate.
  - vm_compute. reflexivity.
  - reflexivity.
  - reflexivity.
  - cbn. lia.
Defined.

(** X8. In one transaction of any function, [ProcessDecrypted(k)] is emitted
    exactly when the record of [k] goes from unrevealed to revealed: no other
    function reveals a record, and [decryptProcess] reveals only the record
    it announces. *)
Theorem ProcessDecrypted_iff_revealed (env : Env) (c : Call) (s : Storage) (k : Z) :
  ProcessDecrypted k ∈ emitted (transact (dispatch env c) s) <->
  isRevealed (read (decryptedProcesses s) k) = false /\
  isRevealed (read (decryptedProcesses (post (transact (dispatch env c) s))) k) = true.
Proof.
  by_call c; repeat case_match; cbn [emitted post].
  all: rewrite ?list_elem_of_singleton, ?elem_of_nil.
  all: cbn [set_decryptedProcess set_encryptedProcess set_processCount
            set_requestToProcessId set_processResult decryptedProcesses].
  all: rewrite ?read_insert; try case_decide.
  all: split; [intros Hl | intros [Hf Ht]];
         try discriminate; try contradiction; try congruence.
  subst k. split; [assumption|reflexivity].
Qed.

(** ** The request table *)

Lemma step_keeps_request env c s r :
  (forall hs sel, FHE_requestDecryption env hs sel <> Some r) ->
  requestToProcessId (step s (env, c)) !! r = requestToProcessId s !! r.
Proof.
  intros Hfresh. unfold step; cbn [fst snd].
  by_call c; repeat case_match; cbn; try reflexivity;
    apply lookup_insert_ne; intros ->;
    match goal with H : FHE_requestDecryption _ _ _ = Some _ |- _ =>
      exact (Hfresh _ _ H) end.
Qed.

Lemma step_request_stays env c s r :
  is_Some (requestToProcessId s !! r) ->
  is_Some (requestToProcessId (step s (env, c)) !! r).
Proof.
  intros Hsome. unfold step; cbn [fst snd].
  by_call c; repeat case_match; cbn; try exact Hsome;
    rewrite lookup_insert; case_decide; eauto.
Qed.

(** X9. A registered request is never removed: no callback and no other
    function deletes a table entry, so the entry of a request id is there after
    every history; and it keeps its value through every history in which the
    library does not issue that request id again. *)
Theorem pending_request_is_durable (txs : list (Env * Call)) (s : Storage) (r : Z) :
  (is_Some (requestToProcessId s !! r) ->
   is_Some (requestToProcessId (run txs s) !! r)) /\
  (Forall (λ tx, forall hs sel, FHE_requestDecryption tx.1 hs sel <> Some r) txs ->
   requestToProcessId (run txs s) !! r = requestToProcessId s !! r).
Proof.
  revert s. induction txs as [|[env c] txs IH]; intros s.
  - split; [intros Hs; exact Hs|reflexivity].
  - rewrite run_cons. destruct (IH (step s (env, c))) as [IH1 IH2]. split.
    + intros Hsome. apply IH1, step_request_stays, Hsome.
    + intros Hfresh. apply Forall_cons in Hfresh as [Hhd Htl].
      rewrite IH2 by exact Htl. apply step_keeps_request. exact Hhd.
Qed.

Lemma pending_request_is_durable_witness :
  let env := {| block_timestamp := 0; FHE_toBytes32 := λ h, h;
                FHE_isInitialized := λ _, true;
                FHE_requestDecryption := λ _ _, Some 9;
                FHE_checkSignatures := λ _ _ _, true;
                abi_decode_strings := λ _, Some ["a"; "b"; "c"];
                abi_decode_string := λ _, Some "d" |} in
  requestToProcessId
    (run [(env, DecryptProcess 7 [] []);
          (env, RequestProcessDecryption 1);
          (env, CreateEncryptedProcess 1 2 3);
          (env, RequestResultDecryption 1 0)]
       (run [(sample_env, CreateEncryptedProcess 11 12 13);
             (sample_env, RequestProcessDecryption 1)] initial_storage)) !! 7
  = Some 1.
Proof.
  cbn zeta.
  refine (eq_trans (proj2 (pending_request_is_durable _ _ 7) _) _).
  - repeat constructor; cbn; intros _ _ [=].
  - vm_compute. reflexivity.
Defined.

(** X10. Decoding then encoding is the identity on stored keys: for every
    [uint256] key, [decodeCompositeId] gives a process id and a one-digit
    result type, 0 to 9, whose encoding [processId * 10 + resultType] is the
    key again, without overflow. *)
Theorem decode_then_encode (compositeId : Z) (w : Storage * list Event) :
  is_uint256 compositeId ->
  0 <= (decodeCompositeId compositeId).1 /\
  0 <= (decodeCompositeId compositeId).2 <= 9 /\
  encodeCompositeId (decodeCompositeId compositeId).1 (decodeCompositeId compositeId).2 w
    = inr (compositeId, w).
Proof.
  intros [Hlo Hhi]. unfold decodeCompositeId, uint8. cbn [fst snd].
  pose proof (Z.mod_pos_bound compositeId 10 ltac:(lia)) as Hdigit.
  pose proof (Z.div_mod compositeId 10 ltac:(lia)) as Hdm.
  rewrite (Z.mod_small (compositeId mod 10) (2 ^ 8)) by lia.
  assert (Hq : 0 <= compositeId / 10) by (apply Z.div_pos; lia).
  split; [exact Hq|]. split; [lia|].
  rewrite encodeCompositeId_eq.
  assert (Hsum : compositeId / 10 * 10 + compositeId mod 10 = compositeId) by lia.
  rewrite Hsum.
  assert (H1 : (compositeId / 10 * 10 <=? MAX_UINT256) = true) by (apply Z.leb_le; lia).
  assert (H2 : (compositeId <=? MAX_UINT256) = true) by (apply Z.leb_le; lia).
  rewrite H1, H2. reflexivity.
Qed.

Lemma decode_then_encode_witness :
  decodeCompositeId 99991 = (9999, 1) /\
  encodeCompositeId 9999 1 (initial_storage, []) = inr (99991, (initial_storage, [])).
Proof.
  split; [reflexivity|].
  refine (proj2 (proj2 (decode_then_encode 99991 (initial_storage, []) _))).
  split; vm_compute; discriminate.
Defined.

(** ** Execution results *)

(** X11. [submitExecutionResult] checks nothing: for any id, created or not,
    it commits and replaces the stored result.  Right after it,
    [hasExecutionResults] of that id is what the library says of the
    submitted output handle: with an initialized handle a request for type 0
    sends the submitted output handle, one for type 1 the submitted time
    handle, and the key [processId * 10 + resultType] is registered when it
    fits a [uint256]; with an uninitialized output handle the request aborts
    with "No results available" although a result was just submitted. *)
Theorem submitted_result_is_requestable
    (env1 env2 : Env) (s : Storage) (processId eo et resultType : Z) :
  let o1 := transact (submitExecutionResult env1 processId eo et) s in
  let o2 := transact (requestResultDecryption env2 processId resultType) (post o1) in
  succeeded o1 = true /\
  read (processResults (post o1)) processId
    = {| encryptedOutput := eo; encryptedExecutionTime := et |} /\
  hasExecutionResults env2 (post o1) processId = FHE_isInitialized env2 eo /\
  (FHE_isInitialized env2 eo = false ->
     o2 = Reverted (Revert "No results available") (post o1)) /\
  (FHE_isInitialized env2 eo = true ->
   resultType = 0 \/ resultType = 1 ->
   processId * 10 + resultType <= MAX_UINT256 ->
   forall reqId,
     FHE_requestDecryption env2 [FHE_toBytes32 env2 (if resultType =? 0 then eo else et)]
       decryptExecutionResult_selector = Some reqId ->
     o2 = Committed
            (set_requestToProcessId reqId (processId * 10 + resultType) (post o1)) []).
Proof.
  cbn zeta. rewrite submitExecutionResult_eq. cbn [post succeeded].
  unfold hasExecutionResults. rewrite requestResultDecryption_eq. cbn zeta.
  cbn [set_processResult processResults]. rewrite read_insert_eq.
  cbn [encryptedOutput encryptedExecutionTime].
  split; [reflexivity|]. split; [reflexivity|]. split; [reflexivity|]. split.
  - intros ->. reflexivity.
  - intros -> Hrt Hfit reqId Hreq. cbn [negb].
    assert (Hvalid : (resultType =? 0) || (resultType =? 1) = true)
      by (destruct Hrt; subst; reflexivity).
    rewrite Hvalid, Hreq. cbn [negb].
    assert (H1 : (processId * 10 <=? MAX_UINT256) = true)
      by (apply Z.leb_le; destruct Hrt; subst; lia).
    assert (H2 : (processId * 10 + resultType <=? MAX_UINT256) = true)
      by (apply Z.leb_le; exact Hfit).
    rewrite H1, H2. reflexivity.
Qed.

Lemma submitted_result_is_requestable_witness :
  transact (requestResultDecryption sample_env 77 1)
    (post (transact (submitExecutionResult sample_env 77 5 6) initial_storage))
  = Committed
      (set_requestToProcessId 8 771
         (post (transact (submitExecutionResult sample_env 77 5 6) initial_storage))) [] /\
  transact (requestResultDecryption sample_env 77 1)
    (post (transact (submitExecutionResult sample_env 77 0 6) initial_storage))
  = Reverted (Revert "No results available")
      (post (transact (submitExecutionResult sample_env 77 0 6) initial_storage)).
Proof.
  pose proof (submitted_result_is_requestable sample_env sample_env
    initial_storage 77 5 6 1) as H5.
  pose proof (submitted_result_is_requestable sample_env sample_env
    initial_storage 77 0 6 1) as H0.
  cbn zeta in H5, H0.
  destruct H5 as (_ & _ & _ & _ & Hok). destruct H0 as (_ & _ & _ & Hno & _).
  split.
  - apply (Hok eq_refl (or_intror eq_refl)); [vm_compute; discriminate|reflexivity].
  - apply Hno. reflexivity.
Defined.

Lemma step_keeps_result env c s p :
  submits p c = false ->
  processResults (step s (env, c)) !! p = processResults s !! p.
Proof.
  intros Hc. unfold step; cbn [fst snd].
  by_call c; repeat case_match; cbn; try reflexivity.
  cbn in Hc. apply bool_decide_eq_false in Hc.
  apply lookup_insert_ne. exact Hc.
Qed.

(** X12. Only [submitExecutionResult] for a process writes its result, and the
    last submission wins: after a submission for [processId] and any history
    with no further submission for it, the stored result is the submitted
    pair, whatever was stored before. *)
Theorem last_submission_wins
    (env : Env) (txs : list (Env * Call)) (s : Storage) (processId eo et : Z) :
  Forall (λ tx, submits processId tx.2 = false) txs ->
  read (processResults
          (run ((env, SubmitExecutionResult processId eo et) :: txs) s)) processId
  = {| encryptedOutput := eo; encryptedExecutionTime := et |}.
Proof.
  intros Hnone. rewrite run_cons.
  assert (Hkeep : forall s0, processResults (run txs s0) !! processId
                             = processResults s0 !! processId).
  { induction txs as [|[env' c] txs IH]; intros s0; [reflexivity|].
    apply Forall_cons in Hnone as [Hhd Htl].
    rewrite run_cons, (IH Htl). apply step_keeps_result. exact Hhd. }
  unfold read. rewrite Hkeep.
  unfold step; cbn [fst snd dispatch]. rewrite submitExecutionResult_eq.
  cbn [post set_processResult processResults].
  rewrite lookup_insert_eq. reflexivity.
Qed.

Lemma last_submission_wins_witness :
  read (processResults
          (run [(sample_env, SubmitExecutionResult 1 5 6);
                (sample_env, SubmitExecutionResult 1 8 9);
                (sample_env, SubmitExecutionResult 2 3 4);
                (sample_env, RequestResultDecryption 1 0);
                (sample_env, DecryptExecutionResult 8 [] [x01])] initial_storage)) 1
  = {| encryptedOutput := 8; encryptedExecutionTime := 9 |}.
Proof.
  apply (last_submission_wins sample_env
    [(sample_env, SubmitExecutionResult 2 3 4);
     (sample_env, RequestResultDecryption 1 0);
     (sample_env, DecryptExecutionResult 8 [] [x01])]
    (run [(sample_env, SubmitExecutionResult 1 5 6)] initial_storage) 1 8 9).
  repeat constructor.
Defined.

(** ** What each function may write *)

(** X13. The storage a transaction can change, by function: only
    [createEncryptedProcess] changes the counter and the stored processes;
    only [createEncryptedProcess] and [decryptProcess] change the decrypted
    records; only [submitExecutionResult] changes the results; only the two
    request functions change the request table.  In particular neither
    callback writes the request table, and [requestProcessExecution] and
    [decryptExecutionResult] write nothing at all. *)
Theorem write_sets (env : Env) (c : Call) (s : Storage) :
  let s' := step s (env, c) in
  match c with
  | CreateEncryptedProcess _ _ _ =>
      processResults s' = processResults s /\
      requestToProcessId s' = requestToProcessId s
  | RequestProcessDecryption _ | RequestResultDecryption _ _ =>
      processCount s' = processCount s /\
      encryptedProcesses s' = encryptedProcesses s /\
      decryptedProcesses s' = decryptedProcesses s /\
      processResults s' = processResults s
  | DecryptProcess _ _ _ =>
      processCount s' = processCount s /\
      encryptedProcesses s' = encryptedProcesses s /\
      processResults s' = processResults s /\
      requestToProcessId s' = requestToProcessId s
  | SubmitExecutionResult _ _ _ =>
      processCount s' = processCount s /\
      encryptedProcesses s' = encryptedProcesses s /\
      decryptedProcesses s' = decryptedProcesses s /\
      requestToProcessId s' = requestToProcessId s
  | RequestProcessExecution _ | DecryptExecutionResult _ _ _ => s' = s
  end.
Proof.
  cbn zeta. unfold step; cbn [fst snd].
  by_call c; repeat case_match; cbn; repeat split; reflexivity.
Qed.
